(** * The educational assistant: chat accumulator, study plans, PDF preview

    A shallow embedding of [app.py].  The three handlers [respond],
    [process_pdf] and [generate_study_plan] are written as functions over an
    explicit environment: the state of the outside world (the hosted
    inference backend, the PDF library), a trace of the calls made to it, and
    for [respond] a store of Python list objects, because the generator
    mutates the list it yields.

    Python [str] is modelled as [string]; one element of a [string] stands for
    one Python character.  A value that may be [None] is an [option]. *)

From Stdlib Require Import Ascii ZArith QArith.
From stdpp Require Import gmap strings list pretty.
Close Scope Q_scope.

(** ** Python values and exceptions *)

(** The newline character of the Python literals. *)
Definition nl : string := String "010"%char "".

(** An operation that either returns or raises; [cause] is [str(e)]. *)
Inductive Res (A : Type) : Type :=
| Ok (a : A)
| Raise (cause : string).
Arguments Ok {A} a.
Arguments Raise {A} cause.

(** Truthiness of an optional string: [None] and the empty string are falsy. *)
Definition truthy (s : option string) : bool :=
  match s with
  | Some (String _ _) => true
  | _ => false
  end.

(** [str(x)] inside an f-string, for a value that may be [None]. *)
Definition fmt (s : option string) : string :=
  match s with
  | Some s => s
  | None => "None"
  end.

(** Concatenation of a list of strings, left to right. *)
Definition join (l : list string) : string := foldr String.append "" l.

(** ** Data model *)

(** A message of a request: the dict [{"role": r, "content": c}].  The
    content of an assistant message is whatever the history holds, so it may
    be [None]. *)
Record Message := mkMessage { role : string; content : option string }.

(** A turn of the chat history: the tuple [(user_msg, assistant_msg)]. *)
Definition Turn : Type := string * option string.

(** The keyword arguments of [client.chat_completion]. *)
Record Request := mkRequest {
  messages : list Message;
  max_tokens : Z;
  stream : bool;
  temperature : Q;
  top_p : Q
}.

(** What iterating a streamed completion does: it delivers chunks, each with
    its [choices[0].delta.content], and then either ends or raises.  A call
    that raises at once is a stream that raises after no chunk. *)
Inductive StreamEnd :=
| Exhausted
| Broken (cause : string).

Record Stream := mkStream { chunks : list (option string); ending : StreamEnd }.

(** The text of one PDF page: [page.extract_text()] returns a string,
    returns [None], or raises. *)
Definition PageText : Type := Res (option string).

(** The uploaded file object; only its [name] is read. *)
Record File := mkFile { name : string }.

(** Calls made to the external collaborators, in order. *)
Inductive Event :=
| ChatCompletion (req : Request)
| PdfOpen (path : string)
| ExtractText (page : nat).

(** Python list objects live in a store; a variable holds a location. *)
Definition loc : Type := nat.
Abbreviation Store := (gmap loc (list Turn)).

(** [l[-1] = x]: replaces the last element, raises [IndexError] on an empty
    list. *)
Definition setitem_last {A : Type} (l : list A) (x : A) : Res (list A) :=
  match length l with
  | O => Raise "list assignment index out of range"
  | S n => Ok (<[n := x]> l)
  end.

(** [l1 + l2] on lists builds a new list object. *)
Definition alloc (v : list Turn) (σ : Store) : loc * Store :=
  let l := fresh (dom σ) in (l, <[l := v]> σ).

(** ** Collaborators with a fixed behaviour

    Used by the examples.  The state of the world is the number of calls
    made so far, so it changes with every call. *)

Definition streams (s : Stream) : Request → nat → Stream * nat :=
  λ _ n, (s, S n).

Definition completes (r : Res (option string))
    : Request → nat → Res (option string) * nat :=
  λ _ n, (r, S n).

Definition opens (r : Res (list PageText))
    : string → nat → Res (list PageText) * nat :=
  λ _ n, (r, S n).

(** Whole numbers of hours: zero is falsy, [str] is the decimal numeral. *)
Definition hours_bool (z : Z) : bool := negb (z =? 0)%Z.

Definition hours_str (z : Z) : string := pretty z.

Section App.

(** The outside world: its state, and how the inference backend and the PDF
    library answer in a given state. *)
Context {World : Type}.
Variable stream_backend : Request → World → Stream * World.
Variable completion_backend : Request → World → Res (option string) * World.
Variable pdfplumber : string → World → Res (list PageText) * World.

(** The number typed in the "Hours per Week" field: its truth value and its
    [str]. *)
Context {Num : Type}.
Variable num_bool : Num → bool.
Variable num_str : Num → string.

Record Env := mkEnv { world : World; trace : list Event }.

(** [client.chat_completion(..., stream=True)] *)
Definition chat_completion_stream (req : Request) (env : Env) : Stream * Env :=
  let '(s, w) := stream_backend req (world env) in
  (s, {| world := w; trace := trace env ++ [ChatCompletion req] |}).

(** [client.chat_completion(...)] without streaming; the result is
    [response.choices[0].message.content]. *)
Definition chat_completion (req : Request) (env : Env) : Res (option string) * Env :=
  let '(r, w) := completion_backend req (world env) in
  (r, {| world := w; trace := trace env ++ [ChatCompletion req] |}).

(** ** [respond] *)

(** Lines 18-24: the message list sent to the backend. *)
Definition assemble (system_prompt : string) (history : list Turn)
    (message : string) : list Message :=
  let messages := [mkMessage "system" (Some system_prompt)] in
  let messages :=
    foldl (λ acc (t : Turn),
             (acc ++ [mkMessage "user" (Some t.1)]) ++ [mkMessage "assistant" t.2])
          messages history in
  messages ++ [mkMessage "user" (Some message)].

Definition respond_request (system_prompt : string) (history : list Turn)
    (message : string) : Request :=
  {| messages := assemble system_prompt history message;
     max_tokens := 512;
     stream := true;
     temperature := 0.7%Q;
     top_p := 0.95%Q |}.

(** The state of the streaming loop: the [response] buffer, the store, and
    what has been yielded so far.  A yield hands out the location of the
    list together with what the consumer sees there at that moment. *)
Record Loop := mkLoop {
  response : string;
  store : Store;
  yielded : list (loc * list Turn)
}.

(** Lines 36-40: the body of the loop for one chunk, [chat_history] being
    the list the local variable is bound to. *)
Definition on_chunk (message : string) (chat_history : loc)
    (token : option string) (st : Loop) : Res Loop :=
  if truthy token then
    let response := response st +:+ default "" token in
    match setitem_last (store st !!! chat_history) (message, Some response) with
    | Ok v =>
        Ok {| response := response;
              store := <[chat_history := v]> (store st);
              yielded := yielded st ++ [(chat_history, v)] |}
    | Raise e => Raise e
    end
  else Ok st.

(** The loop over the delivered chunks; it stops at the first exception and
    returns it with the state reached. *)
Fixpoint stream_loop (message : string) (chat_history : loc)
    (cs : list (option string)) (st : Loop) : Loop * option string :=
  match cs with
  | [] => (st, None)
  | token :: cs' =>
      match on_chunk message chat_history token st with
      | Ok st' => stream_loop message chat_history cs' st'
      | Raise e => (st, Some e)
      end
  end.

(** A finished run of the generator. *)
Record Run := mkRun {
  yields : list (loc * list Turn);
  store_after : Store;
  env_after : Env
}.

(** The snapshots in the order the consumer receives them. *)
Definition snapshots (r : Run) : list (list Turn) := (yields r).*2.

(** The handler of line 42-44, entered with [chat_history] bound to [l]. *)
Definition on_exception (message : string) (l : loc) (cause : string)
    (st : Loop) (env : Env) : Run :=
  let v := (store st !!! l) ++ [(message, Some ("An error occurred: " +:+ cause))] in
  let '(l', σ) := alloc v (store st) in
  {| yields := yielded st ++ [(l', v)]; store_after := σ; env_after := env |}.

(** [respond(message, chat_history, system_prompt)], run to the end.  Every
    exception the body can raise is raised after line 26, when the local
    [chat_history] is already bound to the extended copy. *)
Definition respond (message : string) (chat_history : loc)
    (system_prompt : string) (σ : Store) (env : Env) : Run :=
  let history := σ !!! chat_history in
  let req := respond_request system_prompt history message in
  let '(l, σ) := alloc (history ++ [(message, None)]) σ in
  let '(s, env) := chat_completion_stream req env in
  let '(st, exn) :=
    stream_loop message l (chunks s)
      {| response := ""; store := σ; yielded := [] |} in
  match exn, ending s with
  | Some e, _ => on_exception message l e st env
  | None, Broken e => on_exception message l e st env
  | None, Exhausted =>
      {| yields := yielded st; store_after := store st; env_after := env |}
  end.

(** ** [process_pdf] *)

(** [str(e)] of the [TypeError] raised by [None + "\n"]. *)
Definition none_plus_str : string :=
  "unsupported operand type(s) for +: 'NoneType' and 'str'".

(** Lines 55-57: the loop over [pdf.pages], page [i] being the next one.
    Each page is extracted when the loop reaches it; the loop stops at the
    first exception. *)
Fixpoint extract_pages (pages : list PageText) (i : nat) (text : string)
    (tr : list Event) : Res string * list Event :=
  match pages with
  | [] => (Ok text, tr)
  | page :: pages' =>
      let tr := tr ++ [ExtractText i] in
      match page with
      | Ok (Some s) => extract_pages pages' (S i) (text +:+ (s +:+ nl)) tr
      | Ok None => (Raise none_plus_str, tr)
      | Raise e => (Raise e, tr)
      end
  end.

(** [process_pdf(file)].  Leaving the [with] block closes the document,
    which is not recorded. *)
Definition process_pdf (file : option File) (env : Env) : string * Env :=
  match file with
  | None => ("Please upload a PDF file.", env)
  | Some f =>
      let '(opened, w) := pdfplumber (name f) (world env) in
      let tr := trace env ++ [PdfOpen (name f)] in
      match opened with
      | Ok pages =>
          let '(r, tr) := extract_pages pages 0 "" tr in
          match r with
          | Ok text =>
              ("PDF Content:" +:+ nl +:+ String.substring 0 1000 text +:+ "...",
               {| world := w; trace := tr |})
          | Raise e =>
              ("Error processing PDF: " +:+ e, {| world := w; trace := tr |})
          end
      | Raise e =>
          ("Error processing PDF: " +:+ e, {| world := w; trace := tr |})
      end
  end.

(** ** [generate_study_plan] *)

(** Truth value and [str] of the hours field, which is [None] when unset. *)
Definition num_truthy (t : option Num) : bool :=
  match t with
  | Some n => num_bool n
  | None => false
  end.

Definition fmt_num (t : option Num) : string :=
  match t with
  | Some n => num_str n
  | None => "None"
  end.

(** Python's [all] on a list of truth values. *)
Definition all (l : list bool) : bool := forallb id l.

(** Lines 76-84: the f-string. *)
Definition plan_prompt (topic level : option string) (time : option Num)
    (method goal : option string) : string :=
  "Create a detailed study plan for '" +:+ fmt topic +:+ "' at " +:+ fmt level
    +:+ " level, "
    +:+ "considering " +:+ fmt_num time +:+ " hours per week, with '"
    +:+ fmt method +:+ "' as the preferred learning method. "
    +:+ "Learning goal: '" +:+ fmt goal +:+ "'. "
    +:+ "The plan should include: 1) Main learning stages "
    +:+ "2) Time frames for each stage "
    +:+ "3) Recommended materials and resources "
    +:+ "4) Progress assessment methods".

(** Lines 86-102: the request; [stream] is left at its default. *)
Definition plan_request (topic level : option string) (time : option Num)
    (method goal : option string) : Request :=
  {| messages :=
       [mkMessage "system" (Some "You are an experienced educator and methodologist");
        mkMessage "user" (Some (plan_prompt topic level time method goal))];
     max_tokens := 1024;
     stream := false;
     temperature := 0.7%Q;
     top_p := 0.95%Q |}.

(** [generate_study_plan(topic, level, time, method, goal)]; the result is a
    string, or [None] when the backend's message has no content. *)
Definition generate_study_plan (topic level : option string)
    (time : option Num) (method goal : option string) (env : Env)
    : option string * Env :=
  if negb (all [truthy topic; truthy level; num_truthy time;
                truthy method; truthy goal])
  then (Some "Please fill in all fields.", env)
  else
    let '(r, env) :=
      chat_completion (plan_request topic level time method goal) env in
    match r with
    | Ok content => (content, env)
    | Raise e => (Some ("Error generating plan: " +:+ e), env)
    end.

(** ** Notions used in the statements *)

(** The fragments a stream delivers that the loop does not skip. *)
Definition fragments (cs : list (option string)) : list string :=
  omap (λ token, if truthy token then token else None) cs.

(** The contents of the extended list after each of the fragments [frags],
    the buffer holding [response] before the first of them. *)
Fixpoint growing (history : list Turn) (message response : string)
    (frags : list string) : list (list Turn) :=
  match frags with
  | [] => []
  | f :: frags' =>
      (history ++ [(message, Some (response +:+ f))])
        :: growing history message (response +:+ f) frags'
  end.

(** The reply held by the turn of line 26 once [frags] have been appended
    to a buffer holding [response], the turn holding [a] before. *)
Definition pending (a : option string) (response : string)
    (frags : list string) : option string :=
  match frags with
  | [] => a
  | _ => Some (response +:+ join frags)
  end.

(** The last turn of a conversation. *)
Definition last_turn (c : list Turn) : option Turn := last c.

(** A turn without a reply is found at the last position only. *)
Definition pending_only_last (c : list Turn) : Prop :=
  ∀ i u, c !! i = Some (u, None) → S i = length c.

(** The same, as a test: every turn but the last has a reply. *)
Definition pending_only_lastb (c : list Turn) : bool :=
  forallb (λ t : Turn, bool_decide (is_Some t.2)) (take (length c - 1) c).

(** Every turn of the conversation has a reply. *)
Definition resolved (c : list Turn) : Prop :=
  Forall (λ t : Turn, is_Some t.2) c.

(** The preview of the specification: the page texts with a newline between
    consecutive pages, cut to 1000 characters. *)
Definition pdf_preview_spec (texts : list string) : string :=
  "PDF Content:" +:+ nl +:+ String.substring 0 1000 (String.concat nl texts)
    +:+ "...".

(** The text the loop of [process_pdf] builds: every page text followed by a
    newline. *)
Definition page_lines (texts : list string) : string :=
  join ((λ s, s +:+ nl) <$> texts).

(** The backend answers a request the same way in every state. *)
Definition deterministic (backend : Request → World → Res (option string) * World)
    : Prop :=
  ∀ req w w', (backend req w).1 = (backend req w').1.

(** A field of the study-plan form is empty or unset. *)
Definition blank (s : option string) : Prop := s = None ∨ s = Some "".

(** Opening the document or extracting one of its pages raises with
    [cause]: the library raises when opening, or the pages before some page
    give text and that page raises or gives [None], which makes the
    concatenation raise. *)
Inductive fails_with (cause : string) : Res (list PageText) → Prop :=
| open_raises :
    fails_with cause (Raise cause)
| page_raises (texts : list string) (rest : list PageText) :
    fails_with cause (Ok (((λ s, Ok (Some s)) <$> texts) ++ Raise cause :: rest))
| page_none (texts : list string) (rest : list PageText) :
    cause = none_plus_str →
    fails_with cause (Ok (((λ s, Ok (Some s)) <$> texts) ++ Ok None :: rest)).

(** ** Strings and lists *)

Lemma append_nil_l (s : string) : "" +:+ s = s.
Proof. reflexivity. Qed.

Lemma append_cons (c : ascii) (s t : string) :
  String c s +:+ t = String c (s +:+ t).
Proof. reflexivity. Qed.

Lemma append_nil_r (s : string) : s +:+ "" = s.
Proof. induction s as [|c s IH]; [done |]. by rewrite append_cons, IH. Qed.

Lemma append_assoc (s1 s2 s3 : string) : (s1 +:+ s2) +:+ s3 = s1 +:+ (s2 +:+ s3).
Proof. induction s1 as [|c s1 IH]; [done |]. by rewrite !append_cons, IH. Qed.

Lemma setitem_last_snoc {A : Type} (l : list A) (x y : A) :
  setitem_last (l ++ [x]) y = Ok (l ++ [y]).
Proof.
  unfold setitem_last. rewrite length_app, Nat.add_comm. simpl.
  f_equal. replace (length l) with (length l + 0) by lia.
  by rewrite insert_app_r.
Qed.

Lemma truthy_Some (token : option string) :
  truthy token = true → ∃ c s, token = Some (String c s).
Proof. destruct token as [[|c s]|]; simpl; try done. eauto. Qed.

Lemma fragments_cons (token : option string) (cs : list (option string)) :
  fragments (token :: cs)
  = if truthy token then default "" token :: fragments cs else fragments cs.
Proof. by destruct token as [[|c s]|]. Qed.

Lemma fragments_nonempty (cs : list (option string)) :
  Forall (λ f, f ≠ "") (fragments cs).
Proof.
  induction cs as [|[[|c s]|] cs IH]; simpl; try done.
  by constructor.
Qed.

Lemma fragments_Some (frags : list string) :
  Forall (λ f, f ≠ "") frags → fragments (Some <$> frags) = frags.
Proof.
  induction 1 as [|f frags Hf _ IH]; [done |].
  destruct f as [|c f]; [done |].
  change (fragments (Some <$> String c f :: frags))
    with (String c f :: fragments (Some <$> frags)).
  by rewrite IH.
Qed.

(** ** The contents yielded while streaming *)

Lemma growing_length history message r frags :
  length (growing history message r frags) = length frags.
Proof.
  revert r. induction frags as [|f frags IH]; intros r; simpl; [done |].
  by rewrite IH.
Qed.

Lemma growing_lookup history message frags : ∀ r i,
  i < length frags →
  growing history message r frags !! i
  = Some (history ++ [(message, Some (r +:+ join (take (S i) frags)))]).
Proof.
  induction frags as [|f frags IH]; intros r i Hi; simpl in *; [lia |].
  destruct i as [|i]; simpl.
  - unfold join. simpl. by rewrite append_nil_r.
  - rewrite IH by lia. unfold join. simpl. by rewrite append_assoc.
Qed.

Lemma growing_last history message frags : ∀ r,
  frags ≠ [] →
  last (growing history message r frags)
  = Some (history ++ [(message, Some (r +:+ join frags))]).
Proof.
  induction frags as [|f frags IH]; intros r Hne; [done |].
  destruct frags as [|f' frags].
  - simpl. by rewrite append_nil_r.
  - change (growing history message r (f :: f' :: frags))
      with ((history ++ [(message, Some (r +:+ f))])
              :: growing history message (r +:+ f) (f' :: frags)).
    rewrite last_cons, IH by done.
    change (join (f :: f' :: frags)) with (f +:+ join (f' :: frags)).
    by rewrite append_assoc.
Qed.

Lemma growing_shape history message frags : ∀ r snap,
  snap ∈ growing history message r frags →
  ∃ text, snap = history ++ [(message, Some text)].
Proof.
  induction frags as [|f frags IH]; intros r snap Hin; simpl in *.
  - by apply elem_of_nil in Hin.
  - apply elem_of_cons in Hin as [-> | Hin]; eauto.
Qed.

(** ** The streaming loop *)

(** As long as the list at [l] is the history extended by one turn, the
    loop never raises: it appends every fragment to the buffer, rewrites the
    last turn and yields the list once per fragment. *)
Lemma stream_loop_run message l history : ∀ cs st a,
  store st !! l = Some (history ++ [(message, a)]) →
  stream_loop message l cs st
  = ({| response := response st +:+ join (fragments cs);
        store := <[l := history
                       ++ [(message, pending a (response st) (fragments cs))]]>
                   (store st);
        yielded := yielded st
                   ++ ((λ v, (l, v))
                         <$> growing history message (response st) (fragments cs)) |},
     None).
Proof.
  induction cs as [|token cs IH]; intros st a Hl.
  - simpl. rewrite append_nil_r, app_nil_r, insert_id by done. by destruct st.
  - cbn [stream_loop]. unfold on_chunk. rewrite fragments_cons.
    destruct (truthy token) eqn:Ht; [| by apply IH].
    apply truthy_Some in Ht as (c & s & ->). simpl default.
    rewrite (lookup_total_correct _ _ _ Hl), setitem_last_snoc.
    erewrite IH by (simpl; apply lookup_insert_eq).
    cbn [response store yielded growing fmap list_fmap].
    rewrite insert_insert_eq, <- app_assoc. simpl app.
    do 2 f_equal.
    + by rewrite append_assoc.
    + do 4 f_equal. unfold pending. destruct (fragments cs) as [|f fs].
      * unfold join. simpl. by rewrite append_nil_r.
      * change (join (String c s :: f :: fs))
          with (String c s +:+ join (f :: fs)).
        by rewrite append_assoc.
Qed.

(** ** A run of [respond] *)

Lemma snd_tagged {A : Type} (l : loc) (vs : list A) :
  ((λ v, (l, v)) <$> vs).*2 = vs.
Proof. induction vs as [|v vs IH]; [done |]. cbn. by f_equal. Qed.

Lemma fst_tagged {A : Type} (l : loc) (vs : list A) :
  Forall (λ l', l' = l) ((λ v, (l, v)) <$> vs).*1.
Proof. induction vs as [|v vs IH]; cbn; by constructor. Qed.

Lemma fresh_lookup (σ : Store) : σ !! fresh (dom σ) = None.
Proof. apply not_elem_of_dom, is_fresh. Qed.

(** What a run of [respond] yields and leaves behind, whatever the backend
    does: one copy of the history is made at line 26, rewritten and yielded
    once per fragment; when the backend raises, a second copy, one turn
    longer, is made and yielded. *)
Lemma respond_run message chat_history system_prompt (σ : Store) env :
  let history := σ !!! chat_history in
  let req := respond_request system_prompt history message in
  let s := (stream_backend req (world env)).1 in
  let frags := fragments (chunks s) in
  let l := fresh (dom σ) in
  let σ1 := <[l := history ++ [(message, pending None "" frags)]]> σ in
  let env' := {| world := (stream_backend req (world env)).2;
                 trace := trace env ++ [ChatCompletion req] |} in
  respond message chat_history system_prompt σ env
  = match ending s with
    | Exhausted =>
        {| yields := (λ v, (l, v)) <$> growing history message "" frags;
           store_after := σ1;
           env_after := env' |}
    | Broken e =>
        let v := history ++ [(message, pending None "" frags);
                             (message, Some ("An error occurred: " +:+ e))] in
        {| yields := ((λ v, (l, v)) <$> growing history message "" frags)
                     ++ [(fresh (dom σ1), v)];
           store_after := <[fresh (dom σ1) := v]> σ1;
           env_after := env' |}
    end.
Proof.
  intros history req s frags l σ1 env'.
  unfold respond, alloc, chat_completion_stream.
  fold history. fold req. fold l.
  subst s env'. destruct (stream_backend req (world env)) as [s w]. simpl fst.
  simpl snd. subst frags.
  erewrite stream_loop_run by (simpl; apply lookup_insert_eq).
  cbn [response store yielded app].
  rewrite insert_insert_eq, append_nil_l. fold σ1.
  unfold on_exception, alloc. cbn [store yielded].
  destruct (ending s) as [|e]; [done |].
  subst σ1. by rewrite lookup_total_insert_eq, <- app_assoc.
Qed.

Lemma respond_snapshots message chat_history system_prompt (σ : Store) env :
  let history := σ !!! chat_history in
  let s := (stream_backend (respond_request system_prompt history message)
              (world env)).1 in
  let frags := fragments (chunks s) in
  snapshots (respond message chat_history system_prompt σ env)
  = growing history message "" frags
    ++ match ending s with
       | Exhausted => []
       | Broken e =>
           [history ++ [(message, pending None "" frags);
                        (message, Some ("An error occurred: " +:+ e))]]
       end.
Proof.
  intros history s frags. unfold snapshots.
  rewrite respond_run. fold history. fold s. fold frags.
  destruct (ending s) as [|e]; cbn [yields].
  - by rewrite snd_tagged, app_nil_r.
  - by rewrite fmap_app, snd_tagged.
Qed.

(** ** The message list *)

Lemma assemble_foldl (history : list Turn) : ∀ acc : list Message,
  foldl (λ acc (t : Turn),
           (acc ++ [mkMessage "user" (Some t.1)]) ++ [mkMessage "assistant" t.2])
        acc history
  = acc ++ (history ≫= λ t : Turn,
              [mkMessage "user" (Some t.1); mkMessage "assistant" t.2]).
Proof.
  induction history as [|t history IH]; intros acc; cbn [foldl].
  - by rewrite app_nil_r.
  - by rewrite IH, bind_cons, <- !app_assoc.
Qed.

Lemma length_two_per_turn (history : list Turn) :
  length (history ≫= λ t : Turn,
            [mkMessage "user" (Some t.1); mkMessage "assistant" t.2])
  = 2 * length history.
Proof.
  induction history as [|t history IH]; [done |].
  rewrite bind_cons, length_app, IH. simpl. lia.
Qed.

(** C4.  The message list [respond] sends to the backend is the system
    message, then for each turn of the history, in order, a user message with
    the turn's user text and an assistant message with the turn's assistant
    text, then a user message with the new message; for a history of n turns
    it has 2 * n + 2 elements.  This holds for every history, and so for every
    history of resolved turns. *)
Theorem respond_sends_assembled message chat_history system_prompt (σ : Store) env :
  let history := σ !!! chat_history in
  let sent :=
    [mkMessage "system" (Some system_prompt)]
      ++ (history ≫= λ t : Turn,
            [mkMessage "user" (Some t.1); mkMessage "assistant" t.2])
      ++ [mkMessage "user" (Some message)] in
  trace (env_after (respond message chat_history system_prompt σ env))
  = trace env ++ [ChatCompletion {| messages := sent;
                                     max_tokens := 512;
                                     stream := true;
                                     temperature := 0.7%Q;
                                     top_p := 0.95%Q |}]
  ∧ length sent = 2 * length history + 2.
Proof.
  intros history sent. split.
  - rewrite respond_run. fold history.
    assert (respond_request system_prompt history message
            = {| messages := sent; max_tokens := 512; stream := true;
                 temperature := 0.7%Q; top_p := 0.95%Q |}) as ->.
    { unfold respond_request, assemble. rewrite assemble_foldl.
      subst sent. by rewrite <- app_assoc. }
    by destruct (ending _).
  - subst sent. rewrite !length_app, length_two_per_turn. simpl. lia.
Qed.

(** ** Streaming *)

(** C1.  When the backend delivers the non-empty fragments [frags] and the
    stream then ends, [respond] yields exactly one snapshot per fragment;
    the last turn of the i-th snapshot (counting from 0) pairs the message
    with the concatenation of the first i + 1 fragments, and the last turn
    of the final snapshot pairs it with the concatenation of all of them.
    A snapshot is what the consumer finds in the yielded list when it is
    yielded. *)
Theorem respond_streams_prefixes message chat_history system_prompt
    (σ : Store) env (frags : list string) :
  Forall (λ f, f ≠ "") frags →
  (stream_backend
     (respond_request system_prompt (σ !!! chat_history) message)
     (world env)).1
  = {| chunks := Some <$> frags; ending := Exhausted |} →
  let snaps := snapshots (respond message chat_history system_prompt σ env) in
  length snaps = length frags
  ∧ (∀ i, i < length frags →
       ∃ snap, snaps !! i = Some snap
               ∧ last_turn snap = Some (message, Some (join (take (S i) frags))))
  ∧ (frags ≠ [] →
       ∃ snap, last snaps = Some snap
               ∧ last_turn snap = Some (message, Some (join frags))).
Proof.
  intros Hne Hs snaps. subst snaps.
  rewrite respond_snapshots, Hs. cbn [chunks ending].
  rewrite fragments_Some, app_nil_r by done.
  split; [apply growing_length |]. split.
  - intros i Hi. eexists. split; [by apply growing_lookup |].
    unfold last_turn. by rewrite last_snoc, append_nil_l.
  - intros Hfr. eexists. split; [by apply growing_last |].
    unfold last_turn. by rewrite last_snoc, append_nil_l.
Qed.

(** All the snapshots of a stream that ends are one and the same list
    object, made at line 26, and once the generator is finished that object
    holds the last snapshot. *)
Lemma respond_streams_one_list message chat_history system_prompt (σ : Store) env :
  let r := respond message chat_history system_prompt σ env in
  let s := (stream_backend
              (respond_request system_prompt (σ !!! chat_history) message)
              (world env)).1 in
  ending s = Exhausted →
  Forall (λ l, l = fresh (dom σ)) (yields r).*1
  ∧ store_after r !! fresh (dom σ)
    = Some ((σ !!! chat_history)
              ++ [(message, pending None "" (fragments (chunks s)))]).
Proof.
  intros r s Hend. subst r. rewrite respond_run. fold s. rewrite Hend.
  cbn [yields store_after]. split; [apply fst_tagged | apply lookup_insert_eq].
Qed.

(** C5.  A chunk whose token is [None] or the empty string leaves the loop
    state as it is: nothing is appended to the buffer and nothing is
    yielded.  A chunk with a non-empty token appends the token to the buffer
    and yields once (the assignment to the last element can only raise on
    an empty list, which [respond] never has).  Over a whole run, [respond]
    yields one snapshot per non-empty token, plus the error snapshot if the
    stream raises. *)
Theorem respond_skips_empty_tokens message chat_history system_prompt
    (σ : Store) env :
  let s := (stream_backend
              (respond_request system_prompt (σ !!! chat_history) message)
              (world env)).1 in
  (∀ l st, on_chunk message l None st = Ok st)
  ∧ (∀ l st, on_chunk message l (Some "") st = Ok st)
  ∧ (∀ l st c t,
       match on_chunk message l (Some (String c t)) st with
       | Ok st' =>
           response st' = response st +:+ String c t
           ∧ length (yielded st') = S (length (yielded st))
       | Raise _ => store st !!! l = []
       end)
  ∧ length (snapshots (respond message chat_history system_prompt σ env))
    = length (filter (λ token, truthy token = true) (chunks s))
      + match ending s with Exhausted => 0 | Broken _ => 1 end.
Proof.
  intros s. repeat split; try done.
  - intros l st c t. unfold on_chunk, setitem_last. simpl truthy. cbv iota.
    destruct (store st !!! l) as [|x v]; [done |].
    simpl. split; [done |]. rewrite length_app. simpl. lia.
  - rewrite respond_snapshots. fold s. rewrite length_app, growing_length.
    f_equal.
    + clear. induction (chunks s) as [|token cs IH]; [done |].
      rewrite fragments_cons. destruct (truthy token) eqn:Ht.
      * rewrite filter_cons_True by done. cbn [length]. by rewrite IH.
      * rewrite filter_cons_False by congruence. done.
    + by destruct (ending s).
Qed.

(** When the backend raises after the non-empty fragments [frags],
    [respond] yields one snapshot per fragment and then one more, in which
    the turn of line 26 holds what it held before the exception and a
    second turn for the same message holds the diagnostic. *)
Lemma respond_error_snapshots message chat_history system_prompt
    (σ : Store) env (frags : list string) (cause : string) :
  Forall (λ f, f ≠ "") frags →
  (stream_backend
     (respond_request system_prompt (σ !!! chat_history) message)
     (world env)).1
  = {| chunks := Some <$> frags; ending := Broken cause |} →
  snapshots (respond message chat_history system_prompt σ env)
  = growing (σ !!! chat_history) message "" frags
    ++ [(σ !!! chat_history)
          ++ [(message, pending None "" frags);
              (message, Some ("An error occurred: " +:+ cause))]].
Proof.
  intros Hne Hs. rewrite respond_snapshots, Hs. cbn [chunks ending].
  by rewrite fragments_Some.
Qed.

(** The test [pending_only_lastb] decides [pending_only_last]. *)
Lemma pending_only_lastb_spec (c : list Turn) :
  pending_only_lastb c = true ↔ pending_only_last c.
Proof.
  unfold pending_only_lastb, pending_only_last, Turn.
  rewrite forallb_forall. split.
  - intros Hall i u Hi.
    pose proof (lookup_lt_Some _ _ _ Hi) as Hlt.
    destruct (decide (i < length c - 1)) as [Hin | Hout];
      [| unfold Turn in *; lia].
    assert (take (length c - 1) c !! i = Some (u, None)) as Ht
      by (by rewrite lookup_take_lt).
    apply list_elem_of_lookup_2, list_elem_of_In, Hall in Ht.
    apply bool_decide_eq_true in Ht as [? [=]].
  - intros Hinv [u a] Hin. apply bool_decide_eq_true.
    apply list_elem_of_In, list_elem_of_lookup in Hin as [i Hi].
    pose proof (lookup_lt_Some _ _ _ Hi) as Hlt.
    rewrite length_take in Hlt.
    rewrite lookup_take_lt in Hi by (unfold Turn in *; lia).
    destruct a as [a|]; [by eexists |].
    apply Hinv in Hi. unfold Turn in *. lia.
Qed.

(** C10.  [respond] only extends copies.  Every list object that existed
    before the call, the caller's history among them, holds the same elements
    after the run; every snapshot is the history the call was given, element
    for element, followed by the one or two turns appended for this message;
    and every yielded list is an object that did not exist before the call. *)
Theorem respond_extends_copies message chat_history system_prompt (σ : Store) env :
  let history := σ !!! chat_history in
  let r := respond message chat_history system_prompt σ env in
  σ ⊆ store_after r
  ∧ Forall (λ snap, ∃ extra, snap = history ++ extra
                             ∧ 1 ≤ length extra ≤ 2
                             ∧ Forall (λ t : Turn, t.1 = message) extra)
           (snapshots r)
  ∧ Forall (λ l, σ !! l = None) (yields r).*1.
Proof.
  intros history r.
  set (s := (stream_backend (respond_request system_prompt history message)
               (world env)).1).
  set (σ1 := <[fresh (dom σ) := history
                 ++ [(message, pending None "" (fragments (chunks s)))]]> σ).
  assert (σ ⊆ σ1) as Hσ1 by apply insert_subseteq, fresh_lookup.
  split; [| split].
  - subst r. rewrite respond_run. fold history. fold s. fold σ1.
    destruct (ending s) as [|e]; cbn [store_after]; [done |].
    etrans; [exact Hσ1 |]. apply insert_subseteq, fresh_lookup.
  - subst r. rewrite respond_snapshots. fold history. fold s.
    apply Forall_app. split.
    + apply Forall_forall. intros snap Hin.
      apply growing_shape in Hin as [text ->].
      exists [(message, Some text)]. simpl. repeat split; [lia.. |].
      by repeat constructor.
    + destruct (ending s) as [|e]; constructor; [| done].
      eexists [_; _]. simpl. repeat split; [lia.. |]. by repeat constructor.
  - subst r. rewrite respond_run. fold history. fold s. fold σ1.
    assert (Forall (λ l, σ !! l = None)
              ((λ v, (fresh (dom σ), v))
                 <$> growing history message "" (fragments (chunks s))).*1) as Hl.
    { eapply Forall_impl; [apply fst_tagged |].
      intros l ->. apply fresh_lookup. }
    destruct (ending s) as [|e]; cbn [yields]; [done |].
    rewrite fmap_app. apply Forall_app. split; [done |].
    constructor; [| done]. simpl.
    eapply lookup_weaken_None; [apply fresh_lookup | exact Hσ1].
Qed.

(** While the stream delivers fragments and when it ends, and when it
    raises after at least one fragment, a snapshot of a resolved history has
    no turn without a reply except possibly the last one. *)
Lemma respond_pending_invariant message chat_history system_prompt (σ : Store) env :
  let s := (stream_backend
              (respond_request system_prompt (σ !!! chat_history) message)
              (world env)).1 in
  resolved (σ !!! chat_history) →
  ending s = Exhausted ∨ fragments (chunks s) ≠ [] →
  Forall pending_only_last
    (snapshots (respond message chat_history system_prompt σ env)).
Proof.
  intros s Hres Hcase. rewrite respond_snapshots. fold s.
  assert (∀ extra : list Turn,
            Forall (λ t : Turn, is_Some t.2) extra →
            pending_only_last ((σ !!! chat_history) ++ extra)) as Hall.
  { intros extra Hex i u Hi.
    assert (Forall (λ t : Turn, is_Some t.2) ((σ !!! chat_history) ++ extra)) as HF
      by (apply Forall_app; done).
    rewrite Forall_lookup in HF. apply HF in Hi as [? [=]]. }
  apply Forall_app. split.
  - apply Forall_forall. intros snap Hin.
    apply growing_shape in Hin as [text ->]. apply Hall.
    by repeat constructor.
  - destruct (ending s) as [|e]; [done |]. constructor; [| done].
    destruct Hcase as [[=] | Hne].
    apply Hall. unfold pending.
    destruct (fragments (chunks s)); [done |]. by repeat constructor.
Qed.

(** ** [process_pdf] *)

Lemma extract_pages_texts (texts : list string) : ∀ rest i text tr,
  extract_pages (((λ s, Ok (Some s)) <$> texts) ++ rest) i text tr
  = extract_pages rest (i + length texts) (text +:+ page_lines texts)
      (tr ++ (ExtractText <$> seq i (length texts))).
Proof.
  induction texts as [|s texts IH]; intros rest i text tr.
  - cbn. by rewrite Nat.add_0_r, append_nil_r, app_nil_r.
  - cbn [fmap list_fmap app extract_pages length seq].
    rewrite IH. unfold page_lines. cbn [fmap list_fmap join foldr].
    f_equal; [lia | by rewrite append_assoc | by rewrite <- app_assoc].
Qed.

(** The pages of an opened document either all give text, or some first
    page fails. *)
Lemma pages_texts_or_fail (pages : list PageText) :
  (∃ texts, pages = (λ s, Ok (Some s)) <$> texts)
  ∨ (∃ cause, fails_with cause (Ok pages)).
Proof.
  induction pages as [|page pages IH].
  - left. by exists [].
  - destruct page as [[s|]|e].
    + destruct IH as [[texts ->] | [cause Hfail]].
      * left. by exists (s :: texts).
      * right. exists cause.
        inversion Hfail as [|texts rest Heq|texts rest Hc Heq]; subst.
        -- exact (page_raises cause (s :: texts) rest).
        -- exact (page_none _ (s :: texts) rest eq_refl).
    + right. exists none_plus_str. exact (page_none _ [] pages eq_refl).
    + right. exists e. exact (page_raises e [] pages).
Qed.

(** C7, as the code has it.  When the document opens and every page gives
    text, [process_pdf] returns "PDF Content:", a newline, the first 1000
    characters of the page texts each followed by a newline (the last one
    too), and then "...", whether or not anything was cut off. *)
Theorem process_pdf_preview (env : Env) (f : File) (texts : list string) :
  (pdfplumber (name f) (world env)).1 = Ok ((λ s, Ok (Some s)) <$> texts) →
  (process_pdf (Some f) env).1
  = "PDF Content:" +:+ nl +:+ String.substring 0 1000 (page_lines texts) +:+ "...".
Proof.
  intros Hopen. unfold process_pdf.
  destruct (pdfplumber (name f) (world env)) as [opened w].
  simpl in Hopen. subst opened.
  rewrite <- (app_nil_r (_ <$> texts)), extract_pages_texts. by cbn.
Qed.

(** C8.  Without a file, [process_pdf] returns "Please upload a PDF file."
    and touches nothing: no call is recorded and the world is as before.
    When opening the document raises, or a page raises or gives [None]
    after pages that gave text, it returns "Error processing PDF: " followed
    by the cause. *)
Theorem process_pdf_reports_errors (env : Env) :
  process_pdf None env = ("Please upload a PDF file.", env)
  ∧ ∀ (f : File) (cause : string),
      fails_with cause (pdfplumber (name f) (world env)).1 →
      (process_pdf (Some f) env).1 = "Error processing PDF: " +:+ cause.
Proof.
  split; [done |]. intros f cause Hfail. unfold process_pdf.
  destruct (pdfplumber (name f) (world env)) as [opened w].
  simpl in Hfail. destruct Hfail as [|texts rest|texts rest ->].
  - done.
  - rewrite extract_pages_texts. by cbn.
  - rewrite extract_pages_texts. by cbn.
Qed.

(** ** [generate_study_plan] *)

Lemma blank_falsy (s : option string) : blank s → truthy s = false.
Proof. by intros [-> | ->]. Qed.

(** The guard of line 72 fires exactly when some argument is falsy, a
    number of hours equal to zero included. *)
Lemma generate_study_plan_guard topic level time method goal env :
  all [truthy topic; truthy level; num_truthy time; truthy method; truthy goal]
  = false →
  generate_study_plan topic level time method goal env
  = (Some "Please fill in all fields.", env).
Proof. intros Hall. unfold generate_study_plan. by rewrite Hall. Qed.

(** C6.  When one of the five fields is empty or unset,
    [generate_study_plan] returns "Please fill in all fields." and touches
    nothing: no call to the backend is recorded and the world is as
    before. *)
Theorem generate_study_plan_requires_fields topic level time method goal env :
  blank topic ∨ blank level ∨ time = None ∨ blank method ∨ blank goal →
  generate_study_plan topic level time method goal env
  = (Some "Please fill in all fields.", env).
Proof.
  intros Hblank. apply generate_study_plan_guard. unfold all. cbn [forallb id].
  destruct Hblank as [H | [H | [-> | [H | H]]]];
    try (apply blank_falsy in H; rewrite H);
    cbn [num_truthy]; by rewrite ?andb_false_r.
Qed.

(** C9.  Against a backend whose answer depends on the request only, two
    calls in a row with the same valid input return the same output, even
    though the first call changes the world the second one runs in; both
    calls send the same request, which is made from the five fields and the
    fixed parameters. *)
Theorem generate_study_plan_repeatable topic level time method goal env :
  deterministic completion_backend →
  all [truthy topic; truthy level; num_truthy time; truthy method; truthy goal]
  = true →
  let first := generate_study_plan topic level time method goal env in
  let second := generate_study_plan topic level time method goal first.2 in
  first.1 = second.1
  ∧ trace second.2
    = trace env
      ++ [ChatCompletion (plan_request topic level time method goal);
          ChatCompletion (plan_request topic level time method goal)].
Proof.
  intros Hdet Hall first second. subst second first.
  unfold generate_study_plan. rewrite Hall. cbn [negb].
  unfold chat_completion.
  set (req := plan_request topic level time method goal).
  pose proof (Hdet req (world env)) as Hsame.
  destruct (completion_backend req (world env)) as [r1 w1].
  assert (∀ (r : Res (option string)) (e : Env),
            (let '(r, env) := (r, e) in
             match r with
             | Ok content => (content, env)
             | Raise e => (Some ("Error generating plan: " +:+ e), env)
             end).2 = e) as Hsnd by (by intros [?|?] ?).
  rewrite Hsnd. cbn [world trace].
  specialize (Hsame w1). simpl in Hsame.
  destruct (completion_backend req w1) as [r2 w2]. simpl in Hsame. subst r2.
  split.
  - by destruct r1.
  - rewrite Hsnd. cbn [trace]. by rewrite <- app_assoc.
Qed.

(** ** Further properties of [respond] *)

Lemma fst_tagged_replicate {A : Type} (l : loc) (vs : list A) :
  ((λ v, (l, v)) <$> vs).*1 = replicate (length vs) l.
Proof. induction vs as [|v vs IH]; [done |]. cbn. by f_equal. Qed.

Lemma fragments_falsy (cs : list (option string)) :
  Forall (λ token, truthy token = false) cs → fragments cs = [].
Proof.
  induction 1 as [|token cs Ht _ IH]; [done |].
  by rewrite fragments_cons, Ht.
Qed.

Lemma assemble_snoc system_prompt (history : list Turn) message a message' :
  assemble system_prompt (history ++ [(message, a)]) message'
  = assemble system_prompt history message
    ++ [mkMessage "assistant" a; mkMessage "user" (Some message')].
Proof. unfold assemble. rewrite foldl_snoc. cbn [fst snd]. by rewrite <- !app_assoc. Qed.

Lemma respond_trace message chat_history system_prompt (σ : Store) env :
  trace (env_after (respond message chat_history system_prompt σ env))
  = trace env
    ++ [ChatCompletion (respond_request system_prompt (σ !!! chat_history) message)].
Proof. rewrite respond_run. by destruct (ending _). Qed.

(** X1.  Whatever the stream delivers, empty and [None] tokens included,
    and however it ends, the i-th snapshot is the history followed by the
    message paired with the concatenation of the first i + 1 non-empty
    tokens. *)
Theorem respond_snapshot_at message chat_history system_prompt (σ : Store) env
    (i : nat) :
  let s := (stream_backend
              (respond_request system_prompt (σ !!! chat_history) message)
              (world env)).1 in
  i < length (fragments (chunks s)) →
  snapshots (respond message chat_history system_prompt σ env) !! i
  = Some ((σ !!! chat_history)
            ++ [(message, Some (join (take (S i) (fragments (chunks s)))))]).
Proof.
  intros s Hi. rewrite respond_snapshots. fold s.
  rewrite lookup_app_l by (by rewrite growing_length).
  by rewrite growing_lookup, append_nil_l.
Qed.

(** X2.  When the stream raises, after any number of chunks, [respond]
    yields one snapshot per non-empty token and then exactly one more, whose
    last turn pairs the message with "An error occurred: " and the cause. *)
Theorem respond_error_last_turn message chat_history system_prompt (σ : Store)
    env (cause : string) :
  let s := (stream_backend
              (respond_request system_prompt (σ !!! chat_history) message)
              (world env)).1 in
  let snaps := snapshots (respond message chat_history system_prompt σ env) in
  ending s = Broken cause →
  length snaps = S (length (fragments (chunks s)))
  ∧ ∃ snap, last snaps = Some snap
            ∧ last_turn snap
              = Some (message, Some ("An error occurred: " +:+ cause)).
Proof.
  intros s snaps Hend. subst snaps. rewrite respond_snapshots. fold s.
  rewrite Hend. split.
  - rewrite length_app, growing_length. simpl. lia.
  - eexists. split; [apply last_snoc |]. unfold last_turn.
    by rewrite (last_app_cons _ [_]).
Qed.

(** X3.  When the stream ends without a single non-empty token, [respond]
    yields nothing at all: the copy of the history extended with the
    message is made but never handed out. *)
Theorem respond_silent_stream message chat_history system_prompt (σ : Store) env :
  let s := (stream_backend
              (respond_request system_prompt (σ !!! chat_history) message)
              (world env)).1 in
  let r := respond message chat_history system_prompt σ env in
  Forall (λ token, truthy token = false) (chunks s) →
  ending s = Exhausted →
  yields r = []
  ∧ store_after r
    = <[fresh (dom σ) := (σ !!! chat_history) ++ [(message, None)]]> σ.
Proof.
  intros s r Hfalsy Hend. subst r. rewrite respond_run. fold s.
  rewrite Hend, (fragments_falsy _ Hfalsy). by cbn.
Qed.

(** X4.  The lists [respond] hands out are at most two objects: every
    snapshot yielded while streaming is the one list made at line 26, which
    at the end of the run holds what the last fragment left in it, and the
    error snapshot, if any, is another list made by the handler. *)
Theorem respond_yields_objects message chat_history system_prompt (σ : Store) env :
  let s := (stream_backend
              (respond_request system_prompt (σ !!! chat_history) message)
              (world env)).1 in
  let frags := fragments (chunks s) in
  let r := respond message chat_history system_prompt σ env in
  let l := fresh (dom σ) in
  ∃ l', l' ≠ l
        ∧ (yields r).*1
          = replicate (length frags) l
            ++ match ending s with Exhausted => [] | Broken _ => [l'] end
        ∧ store_after r !! l
          = Some ((σ !!! chat_history) ++ [(message, pending None "" frags)]).
Proof.
  intros s frags r l. subst r. rewrite respond_run. fold s. fold frags. fold l.
  set (σ1 := <[l := (σ !!! chat_history)
                     ++ [(message, pending None "" frags)]]> σ).
  assert (σ1 !! l = Some ((σ !!! chat_history)
                            ++ [(message, pending None "" frags)])) as Hl
    by apply lookup_insert_eq.
  assert (fresh (dom σ1) ≠ l) as Hne.
  { intros Heq. pose proof (fresh_lookup σ1) as Hfresh.
    rewrite Heq in Hfresh.
    discriminate (eq_trans (eq_sym Hl) Hfresh). }
  exists (fresh (dom σ1)). split; [done |].
  destruct (ending s) as [|e]; cbn [yields store_after].
  - by rewrite fst_tagged_replicate, growing_length, app_nil_r.
  - rewrite fmap_app, fst_tagged_replicate, growing_length.
    split; [done |]. by rewrite lookup_insert_ne.
Qed.

(** X5.  The list yielded last still holds, when the run is over, exactly
    the snapshot that was yielded last. *)
Theorem respond_last_yield_final message chat_history system_prompt (σ : Store)
    env (c : loc) (snap : list Turn) :
  let r := respond message chat_history system_prompt σ env in
  last (yields r) = Some (c, snap) →
  store_after r !! c = Some snap.
Proof.
  intros r. subst r. rewrite respond_run.
  set (s := (stream_backend _ (world env)).1).
  destruct (ending s) as [|e]; cbn [yields store_after].
  - rewrite fmap_last. intros Hlast.
    destruct (fragments (chunks s)) as [|f fs] eqn:Hfr; [done |].
    rewrite growing_last in Hlast by done. simpl in Hlast.
    injection Hlast as <- <-. by rewrite lookup_insert_eq.
  - rewrite last_snoc. intros [= <- <-]. apply lookup_insert_eq.
Qed.

(** X6.  After an exchange whose stream ended normally, the next exchange
    run on the list yielded last sends the previous message list followed
    by the assistant message holding the whole reply and the new user
    message. *)
Theorem respond_next_request message message' chat_history system_prompt
    (σ : Store) env (c : loc) (snap : list Turn) :
  let s := (stream_backend
              (respond_request system_prompt (σ !!! chat_history) message)
              (world env)).1 in
  let r := respond message chat_history system_prompt σ env in
  ending s = Exhausted →
  last (yields r) = Some (c, snap) →
  trace (env_after (respond message' c system_prompt (store_after r) (env_after r)))
  = trace env
    ++ [ChatCompletion
          (respond_request system_prompt (σ !!! chat_history) message);
        ChatCompletion
          {| messages :=
               assemble system_prompt (σ !!! chat_history) message
                 ++ [mkMessage "assistant" (Some (join (fragments (chunks s))));
                     mkMessage "user" (Some message')];
             max_tokens := 512;
             stream := true;
             temperature := 0.7%Q;
             top_p := 0.95%Q |}].
Proof.
  intros s r Hend Hlast. subst r.
  rewrite !respond_trace, <- app_assoc. simpl app.
  do 3 f_equal. revert Hlast. rewrite respond_run. fold s.
  rewrite Hend. cbn [yields store_after]. rewrite fmap_last. intros Hlast.
  destruct (fragments (chunks s)) as [|f fs] eqn:Hfr; [done |].
  rewrite growing_last in Hlast by done. simpl in Hlast.
  injection Hlast as <- _. rewrite lookup_total_insert_eq.
  unfold respond_request. cbn [pending]. by rewrite assemble_snoc, append_nil_l.
Qed.

(** X7.  After an exchange whose stream raised, the next exchange run on
    the list yielded last sends the previous message list followed by four
    more messages: the reply the turn of line 26 was left with ([None] when
    no fragment had arrived), the same user message again, the diagnostic as
    an assistant message, and the new user message. *)
Theorem respond_next_request_after_error message message' chat_history
    system_prompt (σ : Store) env (c : loc) (snap : list Turn) (cause : string) :
  let s := (stream_backend
              (respond_request system_prompt (σ !!! chat_history) message)
              (world env)).1 in
  let r := respond message chat_history system_prompt σ env in
  ending s = Broken cause →
  last (yields r) = Some (c, snap) →
  trace (env_after (respond message' c system_prompt (store_after r) (env_after r)))
  = trace env
    ++ [ChatCompletion
          (respond_request system_prompt (σ !!! chat_history) message);
        ChatCompletion
          {| messages :=
               assemble system_prompt (σ !!! chat_history) message
                 ++ [mkMessage "assistant"
                       (pending None "" (fragments (chunks s)));
                     mkMessage "user" (Some message);
                     mkMessage "assistant"
                       (Some ("An error occurred: " +:+ cause));
                     mkMessage "user" (Some message')];
             max_tokens := 512;
             stream := true;
             temperature := 0.7%Q;
             top_p := 0.95%Q |}].
Proof.
  intros s r Hend Hlast. subst r.
  rewrite !respond_trace, <- app_assoc. simpl app.
  do 3 f_equal. revert Hlast. rewrite respond_run. fold s.
  rewrite Hend. cbn [yields store_after]. rewrite last_snoc.
  intros [= <- _]. rewrite lookup_total_insert_eq.
  unfold respond_request.
  assert (∀ (h : list Turn) a b, h ++ [a; b] = (h ++ [a]) ++ [b]) as ->
    by (intros; by rewrite <- app_assoc).
  by rewrite !assemble_snoc, <- app_assoc.
Qed.

(** ** Further properties of [generate_study_plan] *)

(** X8.  [generate_study_plan] calls the backend exactly when all five
    arguments are truthy, and then exactly once, without streaming, with the
    persona as system message and the prompt made from the five fields as
    user message. *)
Theorem generate_study_plan_calls topic level time method goal env :
  trace (generate_study_plan topic level time method goal env).2
  = trace env
    ++ if all [truthy topic; truthy level; num_truthy time;
               truthy method; truthy goal]
       then [ChatCompletion
               {| messages :=
                    [mkMessage "system"
                       (Some "You are an experienced educator and methodologist");
                     mkMessage "user"
                       (Some (plan_prompt topic level time method goal))];
                  max_tokens := 1024;
                  stream := false;
                  temperature := 0.7%Q;
                  top_p := 0.95%Q |}]
       else [].
Proof.
  unfold generate_study_plan, chat_completion.
  destruct (all _); cbn [negb].
  - destruct (completion_backend _ _) as [[content | e] w]; reflexivity.
  - cbn. by rewrite app_nil_r.
Qed.

(** X9.  For arguments that are all truthy, what the backend returns as the
    message content is returned as it is. *)
Theorem generate_study_plan_returns_content topic level time method goal env
    (content : option string) :
  all [truthy topic; truthy level; num_truthy time; truthy method; truthy goal]
  = true →
  (completion_backend (plan_request topic level time method goal) (world env)).1
  = Ok content →
  (generate_study_plan topic level time method goal env).1 = content.
Proof.
  intros Hall Hok. unfold generate_study_plan, chat_completion. rewrite Hall.
  cbn [negb]. destruct (completion_backend _ _) as [r w].
  simpl in Hok. by subst r.
Qed.

(** X10.  For arguments that are all truthy, a backend call that raises is
    not propagated: the result is "Error generating plan: " followed by the
    cause. *)
Theorem generate_study_plan_reports_failure topic level time method goal env
    (cause : string) :
  all [truthy topic; truthy level; num_truthy time; truthy method; truthy goal]
  = true →
  (completion_backend (plan_request topic level time method goal) (world env)).1
  = Raise cause →
  (generate_study_plan topic level time method goal env).1
  = Some ("Error generating plan: " +:+ cause).
Proof.
  intros Hall Hraise. unfold generate_study_plan, chat_completion. rewrite Hall.
  cbn [negb]. destruct (completion_backend _ _) as [r w].
  simpl in Hraise. by subst r.
Qed.

(** X11.  A number of hours that is falsy (zero) counts as a missing field,
    whatever the other fields hold: the result is "Please fill in all
    fields." and nothing is touched. *)
Theorem generate_study_plan_zero_hours topic level (n : Num) method goal env :
  num_bool n = false →
  generate_study_plan topic level (Some n) method goal env
  = (Some "Please fill in all fields.", env).
Proof.
  intros Hn. apply generate_study_plan_guard. unfold all.
  cbn [forallb id num_truthy]. rewrite Hn. by rewrite ?andb_false_r.
Qed.

(** ** Further properties of [process_pdf] *)

Lemma length_append (s1 s2 : string) :
  String.length (s1 +:+ s2) = String.length s1 + String.length s2.
Proof.
  induction s1 as [|c s1 IH]; [done |].
  rewrite append_cons. simpl. by rewrite IH.
Qed.

Lemma length_substring_0 (n : nat) : ∀ s : string,
  String.length (String.substring 0 n s) = n `min` String.length s.
Proof.
  induction n as [|n IH]; intros [|c s]; simpl; try done.
  by rewrite IH.
Qed.

Lemma substring_0_all (n : nat) : ∀ s : string,
  String.length s ≤ n → String.substring 0 n s = s.
Proof.
  induction n as [|n IH]; intros [|c s] Hlen; simpl in *; try done; [lia |].
  rewrite IH by lia. done.
Qed.

(** A document that opens and whose pages all give text. *)
Lemma process_pdf_success (env : Env) (f : File) (texts : list string) :
  (pdfplumber (name f) (world env)).1 = Ok ((λ s, Ok (Some s)) <$> texts) →
  process_pdf (Some f) env
  = ("PDF Content:" +:+ nl +:+ String.substring 0 1000 (page_lines texts) +:+ "...",
     {| world := (pdfplumber (name f) (world env)).2;
        trace := (trace env ++ [PdfOpen (name f)])
                 ++ (ExtractText <$> seq 0 (length texts)) |}).
Proof.
  intros Hopen. unfold process_pdf.
  destruct (pdfplumber (name f) (world env)) as [opened w].
  simpl in Hopen. subst opened.
  rewrite <- (app_nil_r (_ <$> texts)), extract_pages_texts. by cbn.
Qed.

(** X12.  A preview is never longer than 1016 characters (the 13 of the
    heading, at most 1000 of text, the 3 of the ellipsis), and is exactly
    that long once the pages hold 1000 characters or more. *)
Theorem process_pdf_bounded (env : Env) (f : File) (texts : list string) :
  (pdfplumber (name f) (world env)).1 = Ok ((λ s, Ok (Some s)) <$> texts) →
  String.length (process_pdf (Some f) env).1 ≤ 1016
  ∧ (1000 ≤ String.length (page_lines texts) →
     String.length (process_pdf (Some f) env).1 = 1016).
Proof.
  intros Hopen. rewrite (process_pdf_success _ _ _ Hopen). cbn [fst].
  rewrite !length_append, length_substring_0.
  change (String.length "PDF Content:") with 12.
  change (String.length nl) with 1. change (String.length "...") with 3.
  split; [| intros Hlong]; lia.
Qed.

(** X13.  When the pages with their newlines hold at most 1000 characters,
    the preview shows all of it, still followed by the ellipsis. *)
Theorem process_pdf_short_whole (env : Env) (f : File) (texts : list string) :
  (pdfplumber (name f) (world env)).1 = Ok ((λ s, Ok (Some s)) <$> texts) →
  String.length (page_lines texts) ≤ 1000 →
  (process_pdf (Some f) env).1
  = "PDF Content:" +:+ nl +:+ page_lines texts +:+ "...".
Proof.
  intros Hopen Hshort. rewrite (process_pdf_success _ _ _ Hopen). cbn [fst].
  by rewrite substring_0_all.
Qed.

(** X14.  When every page gives text, [process_pdf] opens the file named
    by [file.name] once and then extracts every page once, in page order. *)
Theorem process_pdf_reads_each_page (env : Env) (f : File) (texts : list string) :
  (pdfplumber (name f) (world env)).1 = Ok ((λ s, Ok (Some s)) <$> texts) →
  trace (process_pdf (Some f) env).2
  = trace env ++ PdfOpen (name f) :: (ExtractText <$> seq 0 (length texts)).
Proof.
  intros Hopen. rewrite (process_pdf_success _ _ _ Hopen). cbn [snd trace].
  by rewrite <- app_assoc.
Qed.

(** X15.  When a page raises or gives [None], the pages after it are never
    extracted: the calls made are the opening and one extraction for each
    page up to and including the failing one. *)
Theorem process_pdf_stops_at_failure (env : Env) (f : File)
    (texts : list string) (bad : PageText) (rest : list PageText) :
  (pdfplumber (name f) (world env)).1
  = Ok (((λ s, Ok (Some s)) <$> texts) ++ bad :: rest) →
  (∀ s, bad ≠ Ok (Some s)) →
  trace (process_pdf (Some f) env).2
  = trace env
    ++ PdfOpen (name f) :: (ExtractText <$> seq 0 (S (length texts))).
Proof.
  intros Hopen Hbad. unfold process_pdf.
  destruct (pdfplumber (name f) (world env)) as [opened w].
  simpl in Hopen. subst opened. rewrite extract_pages_texts.
  rewrite seq_S, fmap_app. cbn [extract_pages].
  destruct bad as [[s|]|e]; [by destruct (Hbad s) | |];
    cbn [snd trace fmap list_fmap]; by rewrite <- !app_assoc.
Qed.

End App.

(** ** Examples *)

Lemma respond_streams_prefixes_example :
  let backend := streams {| chunks := [Some "Hel"; Some "lo"]; ending := Exhausted |} in
  let σ : Store := {[0 := [("q", Some "a")]]} in
  let env := {| world := 0; trace := [] |} in
  let snaps := snapshots (respond backend "hi" 0 "sys" σ env) in
  Forall (λ f, f ≠ "") ["Hel"; "lo"]
  ∧ (backend (respond_request "sys" (σ !!! 0) "hi") (world env)).1
    = {| chunks := Some <$> ["Hel"; "lo"]; ending := Exhausted |}
  ∧ length snaps = 2
  ∧ ∃ snap, last snaps = Some snap
            ∧ last_turn snap = Some ("hi", Some "Hello").
Proof.
  intros backend σ env snaps.
  assert (Forall (λ f, f ≠ "") ["Hel"; "lo"]) as Hne by (by repeat constructor).
  assert ((backend (respond_request "sys" (σ !!! 0) "hi") (world env)).1
          = {| chunks := Some <$> ["Hel"; "lo"]; ending := Exhausted |}) as Hs
    by reflexivity.
  split; [exact Hne |]. split; [exact Hs |].
  destruct (respond_streams_prefixes backend "hi" 0 "sys" σ env ["Hel"; "lo"] Hne Hs)
    as (Hlen & _ & Hlast).
  split; [exact Hlen |]. by apply Hlast.
Defined.

(** C2.  The backend raises at once, and raises after one fragment.  In
    both runs the error snapshot has two turns for the message: the turn of
    line 26, which keeps the reply it had (none, or the text streamed so far),
    and a further turn that carries the diagnostic. *)
Theorem respond_error_appends_second_turn :
  let σ : Store := {[0 := []]} in
  let env := {| world := 0; trace := [] |} in
  snapshots (respond (streams {| chunks := []; ending := Broken "boom" |})
               "hi" 0 "sys" σ env)
  = [[("hi", None); ("hi", Some "An error occurred: boom")]]
  ∧ snapshots (respond (streams {| chunks := [Some "Hel"]; ending := Broken "boom" |})
                 "hi" 0 "sys" σ env)
    = [[("hi", Some "Hel")];
       [("hi", Some "Hel"); ("hi", Some "An error occurred: boom")]].
Proof. split; vm_compute; reflexivity. Qed.

(** C3.  The backend raises before any fragment: the snapshot [respond]
    yields has a turn without a reply that is not its last turn. *)
Theorem respond_error_leaves_unanswered_turn :
  let σ : Store := {[0 := []]} in
  let env := {| world := 0; trace := [] |} in
  ∃ snap,
    snapshots (respond (streams {| chunks := []; ending := Broken "boom" |})
                 "hi" 0 "sys" σ env) = [snap]
    ∧ snap !! 0 = Some ("hi", None)
    ∧ length snap = 2
    ∧ pending_only_lastb snap = false
    ∧ ¬ pending_only_last snap.
Proof.
  intros σ env.
  exists [("hi", None); ("hi", Some "An error occurred: boom")].
  split; [vm_compute; reflexivity |].
  repeat split.
  intros Hinv. specialize (Hinv 0 "hi" eq_refl). discriminate Hinv.
Qed.

(** C6 at a request whose goal is empty. *)
Lemma generate_study_plan_requires_fields_example :
  let env := {| world := 0; trace := [] |} in
  (blank (Some "Rocq") ∨ blank (Some "Beginner") ∨ Some 5%Z = None
   ∨ blank (Some "Reading") ∨ blank (Some ""))
  ∧ generate_study_plan (completes (Ok (Some "a plan"))) hours_bool hours_str
      (Some "Rocq") (Some "Beginner") (Some 5%Z) (Some "Reading") (Some "") env
    = (Some "Please fill in all fields.", env).
Proof.
  intros env.
  assert (blank (Some "Rocq") ∨ blank (Some "Beginner") ∨ Some 5%Z = None
          ∨ blank (Some "Reading") ∨ blank (Some "")) as Hblank.
  { do 4 right. by right. }
  split; [exact Hblank |].
  exact (generate_study_plan_requires_fields (completes (Ok (Some "a plan")))
           hours_bool hours_str _ _ _ _ _ env Hblank).
Defined.

(** C7 as stated fails on a document with one page: the code puts a
    newline after the page's text, the specification's preview has none. *)
Lemma process_pdf_trailing_newline :
  let env := {| world := 0; trace := [] |} in
  (opens (Ok [Ok (Some "abc")]) "a.pdf" (world env)).1
  = Ok ((λ s, Ok (Some s)) <$> ["abc"])
  ∧ (process_pdf (opens (Ok [Ok (Some "abc")])) (Some {| name := "a.pdf" |}) env).1
    = "PDF Content:" +:+ nl +:+ "abc" +:+ nl +:+ "..."
  ∧ pdf_preview_spec ["abc"] = "PDF Content:" +:+ nl +:+ "abc" +:+ "..."
  ∧ (process_pdf (opens (Ok [Ok (Some "abc")])) (Some {| name := "a.pdf" |}) env).1
    ≠ pdf_preview_spec ["abc"].
Proof.
  intros env. split; [reflexivity |]. split; [vm_compute; reflexivity |].
  split; [vm_compute; reflexivity |]. vm_compute. discriminate.
Qed.

(** The amended C7 at a document of two short pages. *)
Lemma process_pdf_preview_example :
  let env := {| world := 0; trace := [] |} in
  let library := opens (Ok [Ok (Some "abc"); Ok (Some "de")]) in
  (library "a.pdf" (world env)).1 = Ok ((λ s, Ok (Some s)) <$> ["abc"; "de"])
  ∧ (process_pdf library (Some {| name := "a.pdf" |}) env).1
    = "PDF Content:" +:+ nl +:+ "abc" +:+ nl +:+ "de" +:+ nl +:+ "...".
Proof.
  intros env library.
  assert ((library "a.pdf" (world env)).1
          = Ok ((λ s, Ok (Some s)) <$> ["abc"; "de"])) as Hopen by reflexivity.
  split; [exact Hopen |].
  exact (process_pdf_preview library env {| name := "a.pdf" |} ["abc"; "de"] Hopen).
Defined.

(** C8 at a document whose second page has no text. *)
Lemma process_pdf_reports_errors_example :
  let env := {| world := 0; trace := [] |} in
  let library := opens (Ok [Ok (Some "abc"); Ok None; Ok (Some "de")]) in
  fails_with none_plus_str (library "a.pdf" (world env)).1
  ∧ (process_pdf library (Some {| name := "a.pdf" |}) env).1
    = "Error processing PDF: unsupported operand type(s) for +: 'NoneType' and 'str'".
Proof.
  intros env library.
  assert (fails_with none_plus_str (library "a.pdf" (world env)).1) as Hfail.
  { exact (page_none none_plus_str ["abc"] [Ok (Some "de")] eq_refl). }
  split; [exact Hfail |].
  exact (proj2 (process_pdf_reports_errors library env)
           {| name := "a.pdf" |} none_plus_str Hfail).
Defined.

(** C9 at a valid request, against a backend that answers "a plan" and
    counts its calls. *)
Lemma generate_study_plan_repeatable_example :
  let env := {| world := 0; trace := [] |} in
  let backend := completes (Ok (Some "a plan")) in
  let first :=
    generate_study_plan backend hours_bool hours_str
      (Some "Rocq") (Some "Beginner") (Some 5%Z) (Some "Reading") (Some "proofs") env in
  let second :=
    generate_study_plan backend hours_bool hours_str
      (Some "Rocq") (Some "Beginner") (Some 5%Z) (Some "Reading") (Some "proofs")
      first.2 in
  deterministic backend
  ∧ all [truthy (Some "Rocq"); truthy (Some "Beginner");
         num_truthy hours_bool (Some 5%Z); truthy (Some "Reading");
         truthy (Some "proofs")] = true
  ∧ first.1 = second.1
  ∧ world first.2 = 1 ∧ world second.2 = 2.
Proof.
  intros env backend first second.
  assert (deterministic backend) as Hdet by (intros req w w'; reflexivity).
  assert (all [truthy (Some "Rocq"); truthy (Some "Beginner");
               num_truthy hours_bool (Some 5%Z); truthy (Some "Reading");
               truthy (Some "proofs")] = true) as Hall by reflexivity.
  split; [exact Hdet |]. split; [exact Hall |].
  split; [| split; reflexivity].
  exact (proj1 (generate_study_plan_repeatable backend hours_bool hours_str
                  _ _ _ _ _ env Hdet Hall)).
Defined.

(** ** Examples for the further properties *)

(** X1 at a stream with skipped tokens that raises in the end. *)
Lemma respond_snapshot_at_example :
  let backend :=
    streams {| chunks := [Some "Hel"; None; Some ""; Some "lo"];
               ending := Broken "boom" |} in
  let σ : Store := {[0 := [("q", Some "a")]]} in
  let env := {| world := 0; trace := [] |} in
  1 < length (fragments [Some "Hel"; None; Some ""; Some "lo"])
  ∧ snapshots (respond backend "hi" 0 "sys" σ env) !! 1
    = Some [("q", Some "a"); ("hi", Some "Hello")].
Proof.
  intros backend σ env.
  assert (1 < length (fragments [Some "Hel"; None; Some ""; Some "lo"])) as Hi
    by (simpl; lia).
  split; [exact Hi |].
  exact (respond_snapshot_at backend "hi" 0 "sys" σ env 1 Hi).
Defined.

(** X2 at the same stream. *)
Lemma respond_error_last_turn_example :
  let backend :=
    streams {| chunks := [Some "Hel"; None; Some ""; Some "lo"];
               ending := Broken "boom" |} in
  let σ : Store := {[0 := [("q", Some "a")]]} in
  let env := {| world := 0; trace := [] |} in
  let snaps := snapshots (respond backend "hi" 0 "sys" σ env) in
  ending (backend (respond_request "sys" (σ !!! 0) "hi") (world env)).1
  = Broken "boom"
  ∧ length snaps = 3
  ∧ ∃ snap, last snaps = Some snap
            ∧ last_turn snap = Some ("hi", Some "An error occurred: boom").
Proof.
  intros backend σ env snaps.
  assert (ending (backend (respond_request "sys" (σ !!! 0) "hi") (world env)).1
          = Broken "boom") as Hend by reflexivity.
  split; [exact Hend |].
  exact (respond_error_last_turn backend "hi" 0 "sys" σ env "boom" Hend).
Defined.

(** X3 at a stream of two empty chunks. *)
Lemma respond_silent_stream_example :
  let backend := streams {| chunks := [None; Some ""]; ending := Exhausted |} in
  let σ : Store := {[0 := [("q", Some "a")]]} in
  let env := {| world := 0; trace := [] |} in
  Forall (λ token, truthy token = false) [None; Some ""]
  ∧ ending (backend (respond_request "sys" (σ !!! 0) "hi") (world env)).1
    = Exhausted
  ∧ yields (respond backend "hi" 0 "sys" σ env) = [].
Proof.
  intros backend σ env.
  assert (Forall (λ token, truthy token = false) [None; Some ""]) as Hfalsy
    by (by repeat constructor).
  assert (ending (backend (respond_request "sys" (σ !!! 0) "hi") (world env)).1
          = Exhausted) as Hend by reflexivity.
  split; [exact Hfalsy |]. split; [exact Hend |].
  exact (proj1 (respond_silent_stream backend "hi" 0 "sys" σ env Hfalsy Hend)).
Defined.

(** X5 at a stream of two fragments. *)
Lemma respond_last_yield_final_example :
  let backend := streams {| chunks := [Some "Hel"; Some "lo"]; ending := Exhausted |} in
  let σ : Store := {[0 := [("q", Some "a")]]} in
  let env := {| world := 0; trace := [] |} in
  let r := respond backend "hi" 0 "sys" σ env in
  last (yields r) = Some (1, [("q", Some "a"); ("hi", Some "Hello")])
  ∧ store_after r !! 1 = Some [("q", Some "a"); ("hi", Some "Hello")].
Proof.
  intros backend σ env r.
  assert (last (yields r) = Some (1, [("q", Some "a"); ("hi", Some "Hello")]))
    as Hlast by (vm_compute; reflexivity).
  split; [exact Hlast |].
  exact (respond_last_yield_final backend "hi" 0 "sys" σ env 1 _ Hlast).
Defined.

(** X6 at two exchanges in a row. *)
Lemma respond_next_request_example :
  let backend := streams {| chunks := [Some "Hel"; Some "lo"]; ending := Exhausted |} in
  let σ : Store := {[0 := [("q", Some "a")]]} in
  let env := {| world := 0; trace := [] |} in
  let r := respond backend "hi" 0 "sys" σ env in
  ending (backend (respond_request "sys" (σ !!! 0) "hi") (world env)).1
  = Exhausted
  ∧ last (yields r) = Some (1, [("q", Some "a"); ("hi", Some "Hello")])
  ∧ trace (env_after (respond backend "more" 1 "sys" (store_after r) (env_after r)))
    = [ChatCompletion
         {| messages := [mkMessage "system" (Some "sys");
                         mkMessage "user" (Some "q");
                         mkMessage "assistant" (Some "a");
                         mkMessage "user" (Some "hi")];
            max_tokens := 512; stream := true;
            temperature := 0.7%Q; top_p := 0.95%Q |};
       ChatCompletion
         {| messages := [mkMessage "system" (Some "sys");
                         mkMessage "user" (Some "q");
                         mkMessage "assistant" (Some "a");
                         mkMessage "user" (Some "hi");
                         mkMessage "assistant" (Some "Hello");
                         mkMessage "user" (Some "more")];
            max_tokens := 512; stream := true;
            temperature := 0.7%Q; top_p := 0.95%Q |}].
Proof.
  intros backend σ env r.
  assert (ending (backend (respond_request "sys" (σ !!! 0) "hi") (world env)).1
          = Exhausted) as Hend by reflexivity.
  assert (last (yields r) = Some (1, [("q", Some "a"); ("hi", Some "Hello")]))
    as Hlast by (vm_compute; reflexivity).
  split; [exact Hend |]. split; [exact Hlast |].
  exact (respond_next_request backend "hi" "more" 0 "sys" σ env 1 _ Hend Hlast).
Defined.

(** X7 at an exchange whose backend raises at once, followed by another. *)
Lemma respond_next_request_after_error_example :
  let backend := streams {| chunks := []; ending := Broken "boom" |} in
  let σ : Store := {[0 := [("q", Some "a")]]} in
  let env := {| world := 0; trace := [] |} in
  let r := respond backend "hi" 0 "sys" σ env in
  ending (backend (respond_request "sys" (σ !!! 0) "hi") (world env)).1
  = Broken "boom"
  ∧ last (yields r)
    = Some (2, [("q", Some "a"); ("hi", None);
                ("hi", Some "An error occurred: boom")])
  ∧ trace (env_after (respond backend "more" 2 "sys" (store_after r) (env_after r)))
    = [ChatCompletion
         {| messages := [mkMessage "system" (Some "sys");
                         mkMessage "user" (Some "q");
                         mkMessage "assistant" (Some "a");
                         mkMessage "user" (Some "hi")];
            max_tokens := 512; stream := true;
            temperature := 0.7%Q; top_p := 0.95%Q |};
       ChatCompletion
         {| messages := [mkMessage "system" (Some "sys");
                         mkMessage "user" (Some "q");
                         mkMessage "assistant" (Some "a");
                         mkMessage "user" (Some "hi");
                         mkMessage "assistant" None;
                         mkMessage "user" (Some "hi");
                         mkMessage "assistant" (Some "An error occurred: boom");
                         mkMessage "user" (Some "more")];
            max_tokens := 512; stream := true;
            temperature := 0.7%Q; top_p := 0.95%Q |}].
Proof.
  intros backend σ env r.
  assert (ending (backend (respond_request "sys" (σ !!! 0) "hi") (world env)).1
          = Broken "boom") as Hend by reflexivity.
  assert (last (yields r)
          = Some (2, [("q", Some "a"); ("hi", None);
                      ("hi", Some "An error occurred: boom")]))
    as Hlast by (vm_compute; reflexivity).
  split; [exact Hend |]. split; [exact Hlast |].
  exact (respond_next_request_after_error backend "hi" "more" 0 "sys" σ env 2 _
           "boom" Hend Hlast).
Defined.

(** X9 at a valid request. *)
Lemma generate_study_plan_returns_content_example :
  let env := {| world := 0; trace := [] |} in
  let backend := completes (Ok (Some "a plan")) in
  all [truthy (Some "Rocq"); truthy (Some "Beginner");
       num_truthy hours_bool (Some 5%Z); truthy (Some "Reading");
       truthy (Some "proofs")] = true
  ∧ (backend
       (plan_request hours_str (Some "Rocq") (Some "Beginner") (Some 5%Z)
          (Some "Reading") (Some "proofs"))
       (world env)).1 = Ok (Some "a plan")
  ∧ (generate_study_plan backend hours_bool hours_str
       (Some "Rocq") (Some "Beginner") (Some 5%Z) (Some "Reading") (Some "proofs")
       env).1 = Some "a plan".
Proof.
  intros env backend.
  assert (all [truthy (Some "Rocq"); truthy (Some "Beginner");
               num_truthy hours_bool (Some 5%Z); truthy (Some "Reading");
               truthy (Some "proofs")] = true) as Hall by reflexivity.
  assert ((backend
             (plan_request hours_str (Some "Rocq") (Some "Beginner") (Some 5%Z)
                (Some "Reading") (Some "proofs"))
             (world env)).1 = Ok (Some "a plan")) as Hok by reflexivity.
  split; [exact Hall |]. split; [exact Hok |].
  exact (generate_study_plan_returns_content backend hours_bool hours_str
           _ _ _ _ _ env _ Hall Hok).
Defined.

(** X10 at a valid request, against a backend that raises. *)
Lemma generate_study_plan_reports_failure_example :
  let env := {| world := 0; trace := [] |} in
  let backend := completes (Raise "timed out") in
  all [truthy (Some "Rocq"); truthy (Some "Beginner");
       num_truthy hours_bool (Some 5%Z); truthy (Some "Reading");
       truthy (Some "proofs")] = true
  ∧ (backend
       (plan_request hours_str (Some "Rocq") (Some "Beginner") (Some 5%Z)
          (Some "Reading") (Some "proofs"))
       (world env)).1 = Raise "timed out"
  ∧ (generate_study_plan backend hours_bool hours_str
       (Some "Rocq") (Some "Beginner") (Some 5%Z) (Some "Reading") (Some "proofs")
       env).1 = Some "Error generating plan: timed out".
Proof.
  intros env backend.
  assert (all [truthy (Some "Rocq"); truthy (Some "Beginner");
               num_truthy hours_bool (Some 5%Z); truthy (Some "Reading");
               truthy (Some "proofs")] = true) as Hall by reflexivity.
  assert ((backend
             (plan_request hours_str (Some "Rocq") (Some "Beginner") (Some 5%Z)
                (Some "Reading") (Some "proofs"))
             (world env)).1 = Raise "timed out") as Hraise by reflexivity.
  split; [exact Hall |]. split; [exact Hraise |].
  exact (generate_study_plan_reports_failure backend hours_bool hours_str
           _ _ _ _ _ env _ Hall Hraise).
Defined.

(** X11 at zero hours, every other field filled in. *)
Lemma generate_study_plan_zero_hours_example :
  let env := {| world := 0; trace := [] |} in
  hours_bool 0%Z = false
  ∧ generate_study_plan (completes (Ok (Some "a plan"))) hours_bool hours_str
      (Some "Rocq") (Some "Beginner") (Some 0%Z) (Some "Reading") (Some "proofs")
      env
    = (Some "Please fill in all fields.", env).
Proof.
  intros env.
  assert (hours_bool 0%Z = false) as Hzero by reflexivity.
  split; [exact Hzero |].
  exact (generate_study_plan_zero_hours (completes (Ok (Some "a plan")))
           hours_bool hours_str _ _ 0%Z _ _ env Hzero).
Defined.

(** X12 at a document of one page of 1000 characters. *)
Lemma process_pdf_bounded_example :
  let env := {| world := 0; trace := [] |} in
  let page := String.string_of_list_ascii (replicate 1000 "a"%char) in
  let library := opens (Ok [Ok (Some page)]) in
  (library "a.pdf" (world env)).1 = Ok ((λ s, Ok (Some s)) <$> [page])
  ∧ 1000 ≤ String.length (page_lines [page])
  ∧ String.length (process_pdf library (Some {| name := "a.pdf" |}) env).1 ≤ 1016
  ∧ String.length (process_pdf library (Some {| name := "a.pdf" |}) env).1 = 1016.
Proof.
  intros env page library.
  assert ((library "a.pdf" (world env)).1 = Ok ((λ s, Ok (Some s)) <$> [page]))
    as Hopen by reflexivity.
  assert (1000 ≤ String.length (page_lines [page])) as Hlong
    by (vm_compute; lia).
  split; [exact Hopen |]. split; [exact Hlong |].
  destruct (process_pdf_bounded library env {| name := "a.pdf" |} [page] Hopen)
    as [Hle Heq].
  split; [exact Hle | exact (Heq Hlong)].
Defined.

(** X13 at a document of two short pages. *)
Lemma process_pdf_short_whole_example :
  let env := {| world := 0; trace := [] |} in
  let library := opens (Ok [Ok (Some "abc"); Ok (Some "de")]) in
  (library "a.pdf" (world env)).1 = Ok ((λ s, Ok (Some s)) <$> ["abc"; "de"])
  ∧ String.length (page_lines ["abc"; "de"]) ≤ 1000
  ∧ (process_pdf library (Some {| name := "a.pdf" |}) env).1
    = "PDF Content:" +:+ nl +:+ "abc" +:+ nl +:+ "de" +:+ nl +:+ "...".
Proof.
  intros env library.
  assert ((library "a.pdf" (world env)).1
          = Ok ((λ s, Ok (Some s)) <$> ["abc"; "de"])) as Hopen by reflexivity.
  assert (String.length (page_lines ["abc"; "de"]) ≤ 1000) as Hshort
    by (vm_compute; lia).
  split; [exact Hopen |]. split; [exact Hshort |].
  exact (process_pdf_short_whole library env {| name := "a.pdf" |} ["abc"; "de"]
           Hopen Hshort).
Defined.

(** X14 at the same document. *)
Lemma process_pdf_reads_each_page_example :
  let env := {| world := 0; trace := [] |} in
  let library := opens (Ok [Ok (Some "abc"); Ok (Some "de")]) in
  (library "a.pdf" (world env)).1 = Ok ((λ s, Ok (Some s)) <$> ["abc"; "de"])
  ∧ trace (process_pdf library (Some {| name := "a.pdf" |}) env).2
    = [PdfOpen "a.pdf"; ExtractText 0; ExtractText 1].
Proof.
  intros env library.
  assert ((library "a.pdf" (world env)).1
          = Ok ((λ s, Ok (Some s)) <$> ["abc"; "de"])) as Hopen by reflexivity.
  split; [exact Hopen |].
  exact (process_pdf_reads_each_page library env {| name := "a.pdf" |}
           ["abc"; "de"] Hopen).
Defined.

(** X15 at a document whose second page of three has no text. *)
Lemma process_pdf_stops_at_failure_example :
  let env := {| world := 0; trace := [] |} in
  let library := opens (Ok [Ok (Some "abc"); Ok None; Ok (Some "de")]) in
  (library "a.pdf" (world env)).1
  = Ok (((λ s, Ok (Some s)) <$> ["abc"]) ++ Ok None :: [Ok (Some "de")])
  ∧ (∀ s : string, (Ok None : PageText) ≠ Ok (Some s))
  ∧ trace (process_pdf library (Some {| name := "a.pdf" |}) env).2
    = [PdfOpen "a.pdf"; ExtractText 0; ExtractText 1].
Proof.
  intros env library.
  assert ((library "a.pdf" (world env)).1
          = Ok (((λ s, Ok (Some s)) <$> ["abc"]) ++ Ok None :: [Ok (Some "de")]))
    as Hopen by reflexivity.
  assert (∀ s : string, (Ok None : PageText) ≠ Ok (Some s)) as Hbad
    by (intros s; discriminate).
  split; [exact Hopen |]. split; [exact Hbad |].
  exact (process_pdf_stops_at_failure library env {| name := "a.pdf" |}
           ["abc"] (Ok None) [Ok (Some "de")] Hopen Hbad).
Defined.
